(** * rift.lsp.server: the document store and edit dispatch of [LspServer]

    A shallow embedding of [rift-engine/rift/lsp/server.py].  The server
    object is a record; every method is a computation in a small
    state-and-exception monad over that record.  What the server does to
    the outside world (log records, requests written to the RPC channel,
    batches of coroutines handed to [asyncio.wait]) is kept as traces in
    the same record, so that "nothing was sent" or "every observer got the
    same snapshot" are statements about the final state. *)

From Stdlib Require Import ZArith.
From stdpp Require Import gmap strings list fin_maps.

Open Scope string_scope.

(** ** Python-level plumbing *)

(** An argument of a call that has a default value: either the caller
    leaves it out or passes a value. *)
Inductive Arg (A : Type) : Type :=
| Omitted
| Given (a : A).
Arguments Omitted {A}.
Arguments Given {A} a.

Definition arg_or {A : Type} (dflt : A) (a : Arg A) : A :=
  match a with
  | Omitted => dflt
  | Given x => x
  end.

(** The exceptions the server raises itself, and whatever a collaborator
    (the transport, [ofdict]) raises through it. *)
Inductive Exn : Type :=
| AssertionError (msg : string)
| TypeError (msg : string)
| OtherError (name : string).

Inductive Outcome (A : Type) : Type :=
| Returned (a : A)
| Raised (e : Exn).
Arguments Returned {A} a.
Arguments Raised {A} e.

Definition outcome_bind {A B : Type} (o : Outcome A) (k : A → Outcome B) : Outcome B :=
  match o with
  | Returned a => k a
  | Raised e => Raised e
  end.

Inductive LogLevel : Type := DEBUG | INFO | ERROR.

(** ** The protocol shapes the server touches ([rift.lsp.types]) *)

Definition DocumentUri : Type := string.

Record Position : Type := { line : Z; character : Z }.

Record Range : Type := { range_start : Position; range_end : Position }.

Record TextEdit : Type := { edit_range : Range; newText : string }.

Record TextDocumentIdentifier : Type := { id_uri : DocumentUri; id_version : Z }.

Record TextDocumentEdit : Type :=
  { edit_textDocument : TextDocumentIdentifier; edits : list TextEdit }.

Record WorkspaceEdit : Type := { documentChanges : list TextDocumentEdit }.

Record ApplyWorkspaceEditParams : Type := { edit : WorkspaceEdit }.

Record ConfigurationItem : Type :=
  { section : option string; scopeUri : option DocumentUri }.

Record ConfigurationParams : Type := { items : list ConfigurationItem }.

Record TextDocumentItem : Type :=
  { uri : DocumentUri; languageId : string; version : Z; text : string }.

(** [dataclasses.replace(document, version=v, text=t)]: a fresh record, the
    other fields copied. *)
Definition replace (document : TextDocumentItem) (v : Z) (t : string) : TextDocumentItem :=
  {| uri := uri document; languageId := languageId document; version := v; text := t |}.

(** What goes out on the RPC channel: the method name and its parameters. *)
Inductive RequestParams : Type :=
| ParamsApplyWorkspaceEdit (p : ApplyWorkspaceEditParams)
| ParamsConfiguration (p : ConfigurationParams).

Record Request : Type := { req_method : string; req_params : RequestParams }.

(** What the server takes from its collaborators: the callbacks registered
    with it, [rift.lsp.types], [rift.util.ofdict] and the RPC channel. *)
Class Collaborators : Type :=
  { (** Identities of registered callbacks: hashable Python callables. *)
    Callable : Type;
    Callable_eq_dec :: EqDecision Callable;
    Callable_countable :: Countable Callable;
    (** [TextDocumentContentChangeEvent] and its [apply] method live in
        [rift.lsp.types]; the server only calls [change.apply(text)]. *)
    ContentChange : Type;
    apply : ContentChange → string → string;
    (** The raw value the transport hands back for a request, the typed
        [ApplyWorkspaceEditResponse], and [ofdict] between them. *)
    Json : Type;
    Response : Type;
    ofdict : Json → Outcome Response;
    (** The peer: what [self.request] evaluates to, given everything
        written to the channel so far (the last entry is the request being
        answered). *)
    editor : list Request → Outcome Json }.

Section Server.

Context {env : Collaborators}.

Record DidChangeTextDocumentParams : Type :=
  { textDocument : TextDocumentIdentifier; contentChanges : list ContentChange }.

(** The keyword arguments every change callback is called with. *)
Record ChangeKwargs : Type :=
  { before : TextDocumentItem;
    after : TextDocumentItem;
    changes : DidChangeTextDocumentParams }.

Inductive Target : Type :=
| Registered (callback : Callable)
| DefaultHook.

(** A coroutine object: a callback called with the keyword arguments, its
    body not yet run. *)
Record Coroutine : Type := { target : Target; kwargs : ChangeKwargs }.

(** What [apply_workspace_edit] may be handed at run time. *)
Inductive Payload : Type :=
| ObjApplyWorkspaceEditParams (p : ApplyWorkspaceEditParams)
| ObjWorkspaceEdit (e : WorkspaceEdit)
| ObjDict (raw : Json)
| ObjNone.

Record LspServer : Type :=
  { documents : gmap DocumentUri TextDocumentItem;
    change_callbacks : gmap DocumentUri (gset Callable);
    logged : list (LogLevel * string);
    sent : list Request;
    waited : list (list Coroutine) }.

(** [LspServer.__init__] *)
Definition init : LspServer :=
  {| documents := ∅; change_callbacks := ∅; logged := []; sent := []; waited := [] |}.

Definition set_documents (d : gmap DocumentUri TextDocumentItem) (s : LspServer) : LspServer :=
  {| documents := d; change_callbacks := change_callbacks s;
     logged := logged s; sent := sent s; waited := waited s |}.

Definition set_change_callbacks (c : gmap DocumentUri (gset Callable)) (s : LspServer)
  : LspServer :=
  {| documents := documents s; change_callbacks := c;
     logged := logged s; sent := sent s; waited := waited s |}.

(** ** The monad of methods *)

Definition M (A : Type) : Type := LspServer → Outcome A * LspServer.

#[export] Instance M_ret : MRet M := λ A a s, (Returned a, s).

#[export] Instance M_bind : MBind M := λ A B k m s,
  match m s with
  | (Returned a, s') => k a s'
  | (Raised e, s') => (Raised e, s')
  end.

Definition raise {A : Type} (e : Exn) : M A := λ s, (Raised e, s).

Definition get : M LspServer := λ s, (Returned s, s).

Definition modify (f : LspServer → LspServer) : M unit := λ s, (Returned (), f s).

Definition lift_outcome {A : Type} (o : Outcome A) : M A := λ s, (o, s).

Definition exec {A : Type} (m : M A) (s : LspServer) : LspServer := snd (m s).

Definition result {A : Type} (m : M A) (s : LspServer) : Outcome A := fst (m s).

(** [logger.<level>(msg)] *)
Definition log (lvl : LogLevel) (msg : string) : M unit :=
  modify (λ s, {| documents := documents s; change_callbacks := change_callbacks s;
                  logged := (logged s ++ [(lvl, msg)])%list; sent := sent s;
                  waited := waited s |}).

(** [await self.request(method, params)]: the request is written to the
    channel, then the peer's answer (or failure) comes back. *)
Definition request (method : string) (params : RequestParams) : M Json :=
  modify (λ s, {| documents := documents s; change_callbacks := change_callbacks s;
                  logged := logged s;
                  sent := (sent s ++ [{| req_method := method; req_params := params |}])%list;
                  waited := waited s |}) ;;
  s ← get;
  lift_outcome (editor (sent s)).

(** [await asyncio.wait(map(asyncio.ensure_future, callbacks))] *)
Definition asyncio_wait (callbacks : list Coroutine) : M unit :=
  modify (λ s, {| documents := documents s; change_callbacks := change_callbacks s;
                  logged := logged s; sent := sent s;
                  waited := (waited s ++ [callbacks])%list |}).

(** [self.change_callbacks[uri]] on a [defaultdict(set)]: a missing key is
    first bound to the empty set. *)
Definition change_callbacks_getitem (u : DocumentUri) : M (gset Callable) :=
  s ← get;
  match change_callbacks s !! u with
  | Some cbs => mret cbs
  | None => modify (set_change_callbacks (<[u := ∅]> (change_callbacks s))) ;; mret ∅
  end.

(** ** Methods of [LspServer] *)

Definition apply_workspace_edit (params : Payload) : M Response :=
  match params with
  | ObjApplyWorkspaceEditParams p =>
      response ← request "workspace/applyEdit" (ParamsApplyWorkspaceEdit p);
      response ← lift_outcome (ofdict response);
      mret response
  | _ => raise (TypeError "expected ApplyWorkspaceEditParams or InsertionEdit")
  end.

Definition apply_insert_text (u : DocumentUri) (position : Position) (txt : string)
    (version_arg : Arg (option Z)) : M Response :=
  let version := arg_or (Some 0%Z) version_arg in
  match version with
  | None => raise (AssertionError "version must be given, or we get no edit.")
  | Some version =>
      let textDocument := {| id_uri := u; id_version := version |} in
      let newText := txt in
      let pos := position in
      let params :=
        {| edit :=
            {| documentChanges :=
                [ {| edit_textDocument := textDocument;
                     edits := [ {| edit_range := {| range_start := pos; range_end := pos |};
                                   newText := newText |} ] |} ] |} |} in
      apply_workspace_edit (ObjApplyWorkspaceEditParams params)
  end.

Definition on_did_open (item : TextDocumentItem) : M unit :=
  log DEBUG ("editor opened " +:+ uri item) ;;
  s ← get;
  modify (set_documents (<[uri item := item]> (documents s))).

Definition _on_did_change (params : DidChangeTextDocumentParams) : M unit :=
  let item_id := textDocument params in
  s ← get;
  match documents s !! id_uri item_id with
  | None => log ERROR ("document " +:+ id_uri item_id +:+ " not opened")
  | Some document =>
      let text := fold_left (λ text change, apply change text)
                            (contentChanges params) (text document) in
      let document_after := replace document (id_version item_id) text in
      modify (λ s, set_documents (<[id_uri item_id := document_after]> (documents s)) s) ;;
      let kwargs := {| before := document; after := document_after; changes := params |} in
      cbs ← change_callbacks_getitem (id_uri item_id);
      let callbacks :=
        (λ callback, {| target := Registered callback; kwargs := kwargs |})
          <$> (elements cbs : list Callable) in
      let callbacks := (callbacks ++ [ {| target := DefaultHook; kwargs := kwargs |} ])%list in
      asyncio_wait callbacks
  end.

Definition register_change_callback (callback : Callable) (u : DocumentUri) : M unit :=
  cbs ← change_callbacks_getitem u;
  s ← get;
  modify (set_change_callbacks (<[u := cbs ∪ {[callback]}]> (change_callbacks s))).

Definition on_did_save (u : DocumentUri) : M unit := mret ().

Definition on_did_close (u : DocumentUri) : M unit := mret ().

Definition on_set_trace (value : string) : M unit := mret ().

Definition get_workspace_configuration (sec : option string) (scope : option DocumentUri)
  : M Json :=
  let params := {| items := [ {| section := sec; scopeUri := scope |} ] |} in
  request "workspace/configuration" (ParamsConfiguration params).

(** The [@rpc_method] table for inbound notifications. *)
Inductive Notification : Type :=
| DidOpen (item : TextDocumentItem)
| DidChange (params : DidChangeTextDocumentParams)
| DidSave (u : DocumentUri)
| DidClose (u : DocumentUri)
| SetTrace (value : string).

Definition method_name (n : Notification) : string :=
  match n with
  | DidOpen _ => "textDocument/didOpen"
  | DidChange _ => "textDocument/didChange"
  | DidSave _ => "textDocument/didSave"
  | DidClose _ => "textDocument/didClose"
  | SetTrace _ => "$/setTrace"
  end.

Definition handle (n : Notification) : M unit :=
  match n with
  | DidOpen item => on_did_open item
  | DidChange params => _on_did_change params
  | DidSave u => on_did_save u
  | DidClose u => on_did_close u
  | SetTrace v => on_set_trace v
  end.

(** ** Vocabulary of the properties *)

(** The edits of one notification applied one after the other, each to the
    text the previous one produced. *)
Fixpoint apply_in_order (cs : list ContentChange) (t : string) : string :=
  match cs with
  | [] => t
  | c :: cs => apply_in_order cs (apply c t)
  end.

(** The observers registered for a uri; no entry counts as the empty set. *)
Definition observers (s : LspServer) (u : DocumentUri) : gset Callable :=
  default ∅ (change_callbacks s !! u).

#[export] Instance Target_eq_dec : EqDecision Target.
Proof. solve_decision. Defined.

(** How many coroutines of a batch run the given target. *)
Definition invocations (t : Target) (batch : list Coroutine) : nat :=
  length (filter (λ c, target c = t) batch).

(** The batch a change hands to [asyncio.wait]. *)
Definition change_batch (s : LspServer) (params : DidChangeTextDocumentParams)
    (document : TextDocumentItem) : list Coroutine :=
  let kw :=
    {| before := document;
       after := replace document (id_version (textDocument params))
                        (apply_in_order (contentChanges params) (text document));
       changes := params |} in
  (((λ cb, {| target := Registered cb; kwargs := kw |})
      <$> elements (observers s (id_uri (textDocument params)))) ++
   [ {| target := DefaultHook; kwargs := kw |} ])%list.

(** The server after a whole sequence of inbound notifications. *)
Fixpoint handle_all (ns : list Notification) (s : LspServer) : LspServer :=
  match ns with
  | [] => s
  | n :: ns => handle_all ns (exec (handle n) s)
  end.

(** What the store holds for [u] after each notification of a sequence. *)
Fixpoint stored_after (u : DocumentUri) (ns : list Notification) (s : LspServer)
  : list (option TextDocumentItem) :=
  match ns with
  | [] => []
  | n :: ns => let s' := exec (handle n) s in documents s' !! u :: stored_after u ns s'
  end.

(** The version a notification declares for [u], when it is an open or a
    change of [u]. *)
Definition declared (u : DocumentUri) (n : Notification) : option Z :=
  match n with
  | DidOpen item => if decide (uri item = u) then Some (version item) else None
  | DidChange params =>
      if decide (id_uri (textDocument params) = u)
      then Some (id_version (textDocument params)) else None
  | _ => None
  end.

(** Each declared version is above the one before it, starting above [v]. *)
Fixpoint increasing_from (v : Z) (ds : list (option Z)) : Prop :=
  match ds with
  | [] => True
  | None :: ds => increasing_from v ds
  | Some v' :: ds => (v < v')%Z ∧ increasing_from v' ds
  end.

(** From one stored record to the next the version goes up, or nothing
    changed at all. *)
Definition advances (r r' : TextDocumentItem) : Prop :=
  (version r < version r')%Z ∨ r' = r.

Fixpoint successive {A : Type} (R : A → A → Prop) (a : A) (l : list A) : Prop :=
  match l with
  | [] => True
  | b :: l => R a b ∧ successive R b l
  end.

(** The records stored for [u] along [ns] exist at every step and advance
    from [r]. *)
Definition versions_advance (u : DocumentUri) (r : TextDocumentItem)
    (ns : list Notification) (s : LspServer) : Prop :=
  ∃ rs, stored_after u ns s = Some <$> rs ∧ successive advances r rs.

(** Every record is stored under its own uri. *)
Definition well_keyed (s : LspServer) : Prop :=
  ∀ k r, documents s !! k = Some r → uri r = k.

(** No two entries of the store are records of the same uri. *)
Definition one_record_per_uri (s : LspServer) : Prop :=
  ∀ k1 k2 r1 r2,
    documents s !! k1 = Some r1 → documents s !! k2 = Some r2 → uri r1 = uri r2 →
    k1 = k2 ∧ r1 = r2.

(** The [isinstance(params, ApplyWorkspaceEditParams)] test. *)
Definition is_ApplyWorkspaceEditParams (params : Payload) : bool :=
  match params with
  | ObjApplyWorkspaceEditParams _ => true
  | _ => false
  end.

(** ** Whole sessions

    Everything the outside can do to a server: deliver a notification,
    register a callback, or call one of the outbound methods.  A call that
    raises leaves the server as it was when the exception left the method;
    the session goes on from there. *)
Inductive Call : Type :=
| Inbound (n : Notification)
| RegisterChangeCallback (callback : Callable) (u : DocumentUri)
| ApplyInsertText (u : DocumentUri) (position : Position) (txt : string)
    (version_arg : Arg (option Z))
| ApplyWorkspaceEdit (params : Payload)
| GetWorkspaceConfiguration (sec : option string) (scope : option DocumentUri).

Definition call (c : Call) (s : LspServer) : LspServer :=
  match c with
  | Inbound n => exec (handle n) s
  | RegisterChangeCallback callback u => exec (register_change_callback callback u) s
  | ApplyInsertText u position txt version_arg =>
      exec (apply_insert_text u position txt version_arg) s
  | ApplyWorkspaceEdit params => exec (apply_workspace_edit params) s
  | GetWorkspaceConfiguration sec scope => exec (get_workspace_configuration sec scope) s
  end.

Fixpoint calls (cs : list Call) (s : LspServer) : LspServer :=
  match cs with
  | [] => s
  | c :: cs => calls cs (call c s)
  end.

(** The uri a call opens, if it is a didOpen. *)
Definition opened_by (c : Call) : gset DocumentUri :=
  match c with
  | Inbound (DidOpen item) => {[ uri item ]}
  | _ => ∅
  end.

(** The callback a call registers for [u], if it registers one for [u]. *)
Definition registered_by (u : DocumentUri) (c : Call) : gset Callable :=
  match c with
  | RegisterChangeCallback callback u' => if decide (u' = u) then {[ callback ]} else ∅
  | _ => ∅
  end.

(** The methods of the requests a call is expected to put on the channel:
    none for a notification or a registration, none for an outbound call
    that its own check turns down. *)
Definition methods_sent (c : Call) : list string :=
  match c with
  | ApplyInsertText _ _ _ (Given None) => []
  | ApplyInsertText _ _ _ _ => ["workspace/applyEdit"]
  | ApplyWorkspaceEdit params =>
      if is_ApplyWorkspaceEditParams params then ["workspace/applyEdit"] else []
  | GetWorkspaceConfiguration _ _ => ["workspace/configuration"]
  | _ => []
  end.


Definition is_outbound (c : Call) : bool :=
  match c with
  | ApplyInsertText _ _ _ _ | ApplyWorkspaceEdit _ | GetWorkspaceConfiguration _ _ => true
  | _ => false
  end.

#[export] Instance LogLevel_eq_dec : EqDecision LogLevel.
Proof. solve_decision. Defined.


(** The last coroutine of a batch is the server's own [on_change]. *)
Definition ends_with_default_hook (batch : list Coroutine) : Prop :=
  last (target <$> batch) = Some DefaultHook.

(** A change notification, from its parts. *)
Definition did_change (u : DocumentUri) (v : Z) (cs : list ContentChange)
  : DidChangeTextDocumentParams :=
  {| textDocument := {| id_uri := u; id_version := v |}; contentChanges := cs |}.

End Server.

(** ** A concrete session

    One instance of the collaborators, on which the statements below are
    also run: callbacks are named by strings, the editor accepts every
    request. *)

(** Modelled from the spec: [TextDocumentContentChangeEvent] and its
    [apply] method are declared in [rift.lsp.types], which this file does
    not contain.  "Each edit replaces a given range with new text; a range
    with identical start/end performs a pure insertion."  Positions count
    lines and characters from zero. *)
Record TextDocumentContentChangeEvent : Type :=
  { change_range : Range; change_text : string }.

Definition newline : Ascii.ascii := Ascii.ascii_of_nat 10.

Fixpoint position_offset (t : string) (ln ch : nat) : nat :=
  match ln, t with
  | O, _ => ch
  | S _, EmptyString => 0
  | S ln', String a t' =>
      S (if Ascii.eqb a newline then position_offset t' ln' ch else position_offset t' ln ch)
  end.

Definition offset_of (t : string) (p : Position) : nat :=
  position_offset t (Z.to_nat (line p)) (Z.to_nat (character p)).

Definition TextDocumentContentChangeEvent_apply
    (change : TextDocumentContentChangeEvent) (t : string) : string :=
  let i := offset_of t (range_start (change_range change)) in
  let j := offset_of t (range_end (change_range change)) in
  String.substring 0 i t +:+ change_text change +:+ String.substring j (String.length t - j) t.

Definition insertion (ln ch : Z) (txt : string) : TextDocumentContentChangeEvent :=
  let p := {| line := ln; character := ch |} in
  {| change_range := {| range_start := p; range_end := p |}; change_text := txt |}.

Definition session : Collaborators :=
  {| Callable := string;
     ContentChange := TextDocumentContentChangeEvent;
     apply := TextDocumentContentChangeEvent_apply;
     Json := option bool;
     Response := bool;
     ofdict := λ raw, match raw with
                      | Some applied => Returned applied
                      | None => Raised (OtherError "TypeError")
                      end;
     editor := λ _, Returned (Some true) |}.

Definition doc1 : TextDocumentItem :=
  {| uri := "doc1"; languageId := "python"; version := 1; text := "ab" |}.

Definition doc1_v5 : TextDocumentItem :=
  {| uri := "doc1"; languageId := "python"; version := 5; text := "ab" |}.

Definition here : Position := {| line := 0; character := 1 |}.

Definition change_to (v : Z) (cs : list TextDocumentContentChangeEvent)
  : @DidChangeTextDocumentParams session :=
  @Build_DidChangeTextDocumentParams session {| id_uri := "doc1"; id_version := v |} cs.

(** The texts of the [before] and [after] records each awaited callback was
    called with, batch by batch. *)
Definition texts_seen (s : @LspServer session) : list (list (string * string)) :=
  map (map (λ c : @Coroutine session, (text (before (kwargs c)), text (after (kwargs c)))))
      (waited s).

Definition opened : @LspServer session := exec (on_did_open doc1) init.

Definition watched : @LspServer session :=
  exec (register_change_callback ("observer" : @Callable session) "doc1") opened.




Section Properties.

Context {env : Collaborators}.

#[local] Set Warnings "-clear-no-such-hyp".

(** ** Stepping the monad *)

Ltac step :=
  unfold exec, result, _on_did_change, on_did_open, on_did_save, on_did_close,
    on_set_trace, register_change_callback, apply_workspace_edit, apply_insert_text,
    get_workspace_configuration, request, asyncio_wait, change_callbacks_getitem, log,
    modify, get, raise, lift_outcome, mbind, M_bind, mret, M_ret,
    set_documents, set_change_callbacks;
  simpl.

Lemma fold_left_apply_in_order (cs : list ContentChange) (t : string) :
  fold_left (λ text change, apply change text) cs t = apply_in_order cs t.
Proof. revert t. induction cs as [|c cs IH]; intros t; simpl; [done | apply IH]. Qed.

Lemma apply_in_order_snoc (cs : list ContentChange) (c : ContentChange) (t : string) :
  apply_in_order (cs ++ [c])%list t = apply c (apply_in_order cs t).
Proof. revert t. induction cs as [|c' cs IH]; intros t; simpl; [done | apply IH]. Qed.

(** The state a change of an opened document ends in, written out. *)
Lemma on_did_change_opened (s : LspServer) (params : DidChangeTextDocumentParams)
    (document : TextDocumentItem) :
  documents s !! id_uri (textDocument params) = Some document →
  let u := id_uri (textDocument params) in
  let document_after :=
    replace document (id_version (textDocument params))
            (apply_in_order (contentChanges params) (text document)) in
  _on_did_change params s =
    (Returned (),
     {| documents := <[u := document_after]> (documents s);
        change_callbacks :=
          match change_callbacks s !! u with
          | Some _ => change_callbacks s
          | None => <[u := ∅]> (change_callbacks s)
          end;
        logged := logged s;
        sent := sent s;
        waited := (waited s ++ [change_batch s params document])%list |}).
Proof.
  intros Hdoc. step. rewrite Hdoc. simpl. rewrite fold_left_apply_in_order.
  unfold change_batch, observers.
  destruct (change_callbacks s !! _) as [cbs|] eqn:Hcb; simpl.
  - done.
  - by rewrite elements_empty.
Qed.

Lemma on_did_change_unopened (s : LspServer) (params : DidChangeTextDocumentParams) :
  documents s !! id_uri (textDocument params) = None →
  _on_did_change params s =
    (Returned (),
     {| documents := documents s; change_callbacks := change_callbacks s;
        logged := (logged s ++
          [(ERROR, "document " +:+ id_uri (textDocument params) +:+ " not opened")])%list;
        sent := sent s; waited := waited s |}).
Proof. intros Hdoc. step. by rewrite Hdoc. Qed.

Lemma register_change_callback_run (s : LspServer) (callback : Callable) (u : DocumentUri) :
  register_change_callback callback u s =
    (Returned (),
     set_change_callbacks (<[u := observers s u ∪ {[callback]}]> (change_callbacks s)) s).
Proof.
  step. unfold observers. destruct (change_callbacks s !! u) as [cbs|] eqn:Hcb; simpl.
  - done.
  - by rewrite insert_insert_eq.
Qed.

Lemma observers_register (s : LspServer) (callback : Callable) (u : DocumentUri) :
  observers (exec (register_change_callback callback u) s) u = observers s u ∪ {[callback]}.
Proof.
  unfold exec. rewrite register_change_callback_run. unfold observers at 1. simpl.
  by rewrite lookup_insert_eq.
Qed.

Lemma change_batch_kwargs (s : LspServer) (params : DidChangeTextDocumentParams)
    (document : TextDocumentItem) (c : Coroutine) :
  c ∈ change_batch s params document →
  kwargs c =
    {| before := document;
       after := replace document (id_version (textDocument params))
                        (apply_in_order (contentChanges params) (text document));
       changes := params |}.
Proof.
  unfold change_batch. rewrite elem_of_app, list_elem_of_fmap, list_elem_of_singleton.
  intros [(cb & -> & _) | ->]; done.
Qed.

Lemma change_batch_targets (s : LspServer) (params : DidChangeTextDocumentParams)
    (document : TextDocumentItem) :
  target <$> change_batch s params document =
    ((Registered <$> elements (observers s (id_uri (textDocument params)))) ++ [DefaultHook])%list.
Proof.
  unfold change_batch. rewrite fmap_app, <- list_fmap_compose. done.
Qed.

Lemma change_batch_NoDup (s : LspServer) (params : DidChangeTextDocumentParams)
    (document : TextDocumentItem) :
  NoDup (target <$> change_batch s params document).
Proof.
  rewrite change_batch_targets. apply NoDup_app. split_and!.
  - apply NoDup_fmap_2; [by intros ?? [= ->] | apply NoDup_elements].
  - intros t (cb & -> & _)%list_elem_of_fmap [=]%list_elem_of_singleton.
  - apply NoDup_singleton.
Qed.

Lemma change_batch_elem_of (s : LspServer) (params : DidChangeTextDocumentParams)
    (document : TextDocumentItem) (t : Target) :
  t ∈ target <$> change_batch s params document ↔
  t = DefaultHook ∨ ∃ cb, t = Registered cb ∧ cb ∈ observers s (id_uri (textDocument params)).
Proof.
  rewrite change_batch_targets, elem_of_app, list_elem_of_fmap, list_elem_of_singleton.
  split.
  - intros [(cb & -> & Hcb%elem_of_elements) | ->]; eauto.
  - intros [-> | (cb & -> & Hcb)]; [by right | left].
    exists cb. split; [done | by apply elem_of_elements].
Qed.

Lemma invocations_absent (t : Target) (batch : list Coroutine) :
  t ∉ target <$> batch → invocations t batch = 0.
Proof.
  unfold invocations. induction batch as [|c batch IH]; simpl; [done |].
  rewrite not_elem_of_cons. intros [Hne Hnin].
  rewrite filter_cons. destruct (decide (target c = t)) as [Heq | _]; [by subst | by apply IH].
Qed.

(** A target that occurs in a batch without repeated targets is run once. *)
Lemma invocations_NoDup (t : Target) (batch : list Coroutine) :
  NoDup (target <$> batch) → t ∈ target <$> batch → invocations t batch = 1.
Proof.
  induction batch as [|c batch IH]; simpl.
  - intros _ Hin. by apply elem_of_nil in Hin.
  - rewrite NoDup_cons, elem_of_cons. intros [Hc Hnd] Hin.
    unfold invocations in *. rewrite filter_cons.
    destruct (decide (target c = t)) as [<- | Hne]; simpl.
    + f_equal. by apply invocations_absent.
    + apply IH; [done |]. by destruct Hin as [-> | Hin].
Qed.

(** ** The document store under change notifications *)

(** C1: a change notification for an opened document applies its edits one
    after the other, each to the text the previous one produced, starting
    from the stored text, and stores a record with that text and with the
    version the notification declares; with no edits the text stays and the
    version is still the declared one. *)
Theorem on_did_change_applies_edits_in_order (s : LspServer)
    (params : DidChangeTextDocumentParams) (document : TextDocumentItem) :
  documents s !! id_uri (textDocument params) = Some document →
  let s' := exec (_on_did_change params) s in
  documents s' !! id_uri (textDocument params) =
    Some {| uri := uri document; languageId := languageId document;
            version := id_version (textDocument params);
            text := apply_in_order (contentChanges params) (text document) |} ∧
  (∀ cs c, contentChanges params = (cs ++ [c])%list →
     text <$> documents s' !! id_uri (textDocument params) =
       Some (apply c (apply_in_order cs (text document)))) ∧
  (contentChanges params = [] →
     documents s' !! id_uri (textDocument params) =
       Some {| uri := uri document; languageId := languageId document;
               version := id_version (textDocument params);
               text := text document |}).
Proof.
  intros Hdoc. unfold exec. rewrite (on_did_change_opened _ _ _ Hdoc). simpl.
  rewrite lookup_insert_eq. split_and!; [done | |].
  - intros cs c ->. simpl. by rewrite apply_in_order_snoc.
  - by intros ->.
Qed.

(** C3: a change notification for a uri that is not in the store is logged
    as an error ("document ... not opened") and dropped: the handler
    returns, the store and the observer registry are what they were, no
    callback is handed to the event loop and nothing is sent. *)
Theorem on_did_change_unknown_document (s : LspServer)
    (params : DidChangeTextDocumentParams) :
  documents s !! id_uri (textDocument params) = None →
  let s' := exec (_on_did_change params) s in
  result (_on_did_change params) s = Returned () ∧
  logged s' =
    (logged s ++
       [(ERROR, "document " +:+ id_uri (textDocument params) +:+ " not opened")])%list ∧
  documents s' = documents s ∧
  change_callbacks s' = change_callbacks s ∧
  waited s' = waited s ∧
  sent s' = sent s.
Proof.
  intros Hdoc. unfold exec, result. by rewrite (on_did_change_unopened _ _ Hdoc).
Qed.

(** C5: a change notification for an opened document hands exactly one
    batch of callbacks to the event loop; its targets are the observers
    registered for the uri and the default hook, none of them twice, and
    each is called with the same keyword arguments: [before] is the record
    that was stored, [after] the record the change stores. *)
Theorem on_did_change_dispatches_one_event (s : LspServer)
    (params : DidChangeTextDocumentParams) (document : TextDocumentItem) :
  documents s !! id_uri (textDocument params) = Some document →
  let u := id_uri (textDocument params) in
  let s' := exec (_on_did_change params) s in
  ∃ (batch : list Coroutine) (document_after : TextDocumentItem),
    waited s' = (waited s ++ [batch])%list ∧
    documents s' !! u = Some document_after ∧
    (∀ c, c ∈ batch →
       kwargs c = {| before := document; after := document_after; changes := params |}) ∧
    (∀ cb, cb ∈ observers s u → invocations (Registered cb) batch = 1) ∧
    invocations DefaultHook batch = 1 ∧
    length batch = S (size (observers s u)).
Proof.
  intros Hdoc u s'. subst s'. unfold exec. rewrite (on_did_change_opened _ _ _ Hdoc). simpl.
  eexists (change_batch s params document), _. split_and!.
  - done.
  - apply lookup_insert_eq.
  - apply change_batch_kwargs.
  - intros cb Hcb. apply invocations_NoDup; [apply change_batch_NoDup |].
    apply change_batch_elem_of. right. by exists cb.
  - apply invocations_NoDup; [apply change_batch_NoDup |].
    apply change_batch_elem_of. by left.
  - subst u. unfold change_batch. rewrite length_app, length_fmap. simpl.
    unfold size, set_size. simpl. lia.
Qed.

(** C6: registering a callback a second time for the same uri leaves the
    server exactly as the first registration left it, and a change of that
    uri (once opened) then calls the callback once. *)
Theorem register_change_callback_idempotent (s : LspServer) (callback : Callable)
    (params : DidChangeTextDocumentParams) (document : TextDocumentItem) :
  documents s !! id_uri (textDocument params) = Some document →
  let u := id_uri (textDocument params) in
  let once := exec (register_change_callback callback u) s in
  let twice := exec (register_change_callback callback u) once in
  twice = once ∧
  ∃ batch, waited (exec (_on_did_change params) twice) = (waited s ++ [batch])%list ∧
           invocations (Registered callback) batch = 1.
Proof.
  intros Hdoc u once twice.
  assert (Htwice : twice = once).
  { subst twice. unfold exec at 1. rewrite register_change_callback_run. simpl.
    subst once. rewrite observers_register. unfold exec.
    rewrite register_change_callback_run. unfold set_change_callbacks. simpl.
    rewrite insert_insert_eq. do 2 f_equal.
    by rewrite <- (assoc_L (∪)), (idemp_L (∪)). }
  split; [done |]. rewrite Htwice.
  assert (Hdoc' : documents once !! id_uri (textDocument params) = Some document).
  { subst once. unfold exec. by rewrite register_change_callback_run. }
  unfold exec at 1. rewrite (on_did_change_opened _ _ _ Hdoc'). simpl.
  exists (change_batch once params document). split.
  - subst once. unfold exec. by rewrite register_change_callback_run.
  - apply invocations_NoDup; [apply change_batch_NoDup |].
    apply change_batch_elem_of. right. exists callback. split; [done |].
    subst once. fold u. rewrite observers_register. set_solver.
Qed.

(** ** Sequences of notifications *)

Lemma on_did_open_run (s : LspServer) (item : TextDocumentItem) :
  on_did_open item s =
    (Returned (),
     {| documents := <[uri item := item]> (documents s);
        change_callbacks := change_callbacks s;
        logged := (logged s ++ [(DEBUG, "editor opened " +:+ uri item)])%list;
        sent := sent s; waited := waited s |}).
Proof. by step. Qed.

(** A notification that declares nothing for [u] leaves the entry of [u]. *)
Lemma handle_undeclared (u : DocumentUri) (n : Notification) (s : LspServer) :
  declared u n = None → documents (exec (handle n) s) !! u = documents s !! u.
Proof.
  destruct n as [item | params | | |]; cbn [handle declared]; try done.
  - case_decide as Hu; [done | intros _].
    unfold exec. rewrite on_did_open_run. simpl. by rewrite lookup_insert_ne.
  - case_decide as Hu; [done | intros _]. unfold exec.
    destruct (documents s !! id_uri (textDocument params)) as [d|] eqn:Hdoc.
    + rewrite (on_did_change_opened _ _ _ Hdoc). simpl. by rewrite lookup_insert_ne.
    + by rewrite (on_did_change_unopened _ _ Hdoc).
Qed.

(** A notification that declares a version for an opened [u] stores a
    record with that version. *)
Lemma handle_declared (u : DocumentUri) (n : Notification) (s : LspServer)
    (r : TextDocumentItem) (v : Z) :
  documents s !! u = Some r → declared u n = Some v →
  ∃ r', documents (exec (handle n) s) !! u = Some r' ∧ version r' = v.
Proof.
  intros Hr. destruct n as [item | params | | |]; cbn [handle declared]; try done.
  - case_decide as Hu; [intros [= <-] | done]. subst u.
    unfold exec. rewrite on_did_open_run. simpl. rewrite lookup_insert_eq. eauto.
  - case_decide as Hu; [intros [= <-] | done]. subst u.
    unfold exec. rewrite (on_did_change_opened _ _ _ Hr). simpl.
    rewrite lookup_insert_eq. eauto.
Qed.

Lemma handle_keeps_open (u : DocumentUri) (n : Notification) (s : LspServer)
    (r : TextDocumentItem) :
  documents s !! u = Some r → ∃ r', documents (exec (handle n) s) !! u = Some r'.
Proof.
  intros Hr. destruct (declared u n) as [v|] eqn:Hd.
  - destruct (handle_declared u n s r v Hr Hd) as (r' & Hr' & _). eauto.
  - exists r. by rewrite handle_undeclared.
Qed.

Lemma versions_advance_from (u : DocumentUri) (ns : list Notification) :
  ∀ (s : LspServer) (r : TextDocumentItem),
    documents s !! u = Some r →
    increasing_from (version r) (declared u <$> ns) →
    versions_advance u r ns s.
Proof.
  unfold versions_advance.
  induction ns as [|n ns IH]; intros s r Hr Hinc; simpl in *.
  - by exists [].
  - destruct (declared u n) as [v|] eqn:Hd.
    + destruct Hinc as [Hlt Hinc].
      destruct (handle_declared u n s r v Hr Hd) as (r' & Hr' & Hv). subst v.
      destruct (IH _ _ Hr' Hinc) as (rs & Hrs & Hsucc).
      exists (r' :: rs). simpl. rewrite Hr', Hrs. split; [done |].
      split; [by left | done].
    + assert (Hr' : documents (exec (handle n) s) !! u = Some r)
        by (by rewrite handle_undeclared).
      destruct (IH _ _ Hr' Hinc) as (rs & Hrs & Hsucc).
      exists (r :: rs). simpl. rewrite Hr', Hrs. split; [done |].
      split; [by right | done].
Qed.

Lemma stored_after_declared (u : DocumentUri) (ns : list Notification) :
  ∀ (s : LspServer) (r : TextDocumentItem) (i : nat) (n : Notification) (v : Z),
    documents s !! u = Some r → ns !! i = Some n → declared u n = Some v →
    ∃ r', stored_after u ns s !! i = Some (Some r') ∧ version r' = v.
Proof.
  induction ns as [|n0 ns IH]; intros s r i n v Hr Hi Hd; [done |].
  destruct i as [|i]; simpl in *.
  - injection Hi as ->. destruct (handle_declared u n s r v Hr Hd) as (r' & -> & Hv). eauto.
  - destruct (handle_keeps_open u n0 s r Hr) as (r0 & Hr0). by eapply IH.
Qed.

Lemma init_well_keyed : well_keyed init.
Proof. intros k r Hk. cbn [init documents] in Hk. by rewrite lookup_empty in Hk. Qed.

Lemma handle_well_keyed (n : Notification) (s : LspServer) :
  well_keyed s → well_keyed (exec (handle n) s).
Proof.
  intros Hs k r. destruct n as [item | params | | |]; cbn [handle]; try apply Hs.
  - unfold exec. rewrite on_did_open_run. simpl. rewrite lookup_insert.
    case_decide as Hk; [by intros [= <-] | apply Hs].
  - unfold exec.
    destruct (documents s !! id_uri (textDocument params)) as [d|] eqn:Hdoc.
    + rewrite (on_did_change_opened _ _ _ Hdoc). simpl. rewrite lookup_insert.
      case_decide as Hk; [| apply Hs]. intros [= <-]. simpl. subst k. by apply Hs.
    + rewrite (on_did_change_unopened _ _ Hdoc). apply Hs.
Qed.

Lemma handle_all_well_keyed (ns : list Notification) :
  ∀ s : LspServer, well_keyed s → well_keyed (handle_all ns s).
Proof.
  induction ns as [|n ns IH]; intros s Hs; simpl; [done |].
  by apply IH, handle_well_keyed.
Qed.

Lemma well_keyed_one_record (s : LspServer) : well_keyed s → one_record_per_uri s.
Proof.
  intros Hs k1 k2 r1 r2 H1 H2 Hu.
  assert (k1 = k2) as -> by (by rewrite <- (Hs _ _ H1), <- (Hs _ _ H2)).
  split; [done | congruence].
Qed.

(** C4 (as the code has it): the handlers store the version a notification
    declares and never compare it with the stored one.  So, after a
    document is opened, along any sequence of notifications whose declared
    versions for that uri go up, every stored record has the declared
    version, the version of successive stored records goes up and stays
    equal only where the record is left as it was, and the store holds one
    record per uri at every point. *)
Theorem versions_follow_declared (s : LspServer) (item : TextDocumentItem)
    (ns : list Notification) :
  well_keyed s →
  increasing_from (version item) (declared (uri item) <$> ns) →
  let u := uri item in
  let s0 := exec (on_did_open item) s in
  documents s0 !! u = Some item ∧
  versions_advance u item ns s0 ∧
  (∀ i n v, ns !! i = Some n → declared u n = Some v →
     ∃ r, stored_after u ns s0 !! i = Some (Some r) ∧ version r = v) ∧
  (∀ k, one_record_per_uri (handle_all (take k ns) s0)).
Proof.
  intros Hs Hinc u s0.
  assert (H0 : documents s0 !! u = Some item).
  { subst s0 u. unfold exec. rewrite on_did_open_run. simpl. apply lookup_insert_eq. }
  split_and!.
  - done.
  - by apply versions_advance_from.
  - intros i n v Hi Hd. by eapply stored_after_declared.
  - intros k. apply well_keyed_one_record, handle_all_well_keyed.
    apply (handle_well_keyed (DidOpen item)), Hs.
Qed.

(** ** Edits and queries sent to the editor *)

Lemma request_run (method : string) (params : RequestParams) (s : LspServer) :
  let s' :=
    {| documents := documents s; change_callbacks := change_callbacks s;
       logged := logged s;
       sent := (sent s ++ [ {| req_method := method; req_params := params |} ])%list;
       waited := waited s |} in
  request method params s = (editor (sent s'), s').
Proof. by step. Qed.

Lemma apply_workspace_edit_typed (p : ApplyWorkspaceEditParams) (s : LspServer) :
  let s' :=
    {| documents := documents s; change_callbacks := change_callbacks s;
       logged := logged s;
       sent := (sent s ++ [ {| req_method := "workspace/applyEdit";
                               req_params := ParamsApplyWorkspaceEdit p |} ])%list;
       waited := waited s |} in
  apply_workspace_edit (ObjApplyWorkspaceEditParams p) s =
    (outcome_bind (editor (sent s')) ofdict, s').
Proof.
  step. destruct (editor _) as [raw | e]; simpl; [| done].
  by destruct (ofdict raw).
Qed.

(** An explicit [None] for the version trips the assertion before anything
    is built or sent. *)
Lemma apply_insert_text_version_None (u : DocumentUri) (position : Position)
    (txt : string) (s : LspServer) :
  apply_insert_text u position txt (Given None) s =
    (Raised (AssertionError "version must be given, or we get no edit."), s).
Proof. done. Qed.

(** C2 (what the code does at the failing input): with the version left
    out, the default 0 passes the assertion, and a workspace/applyEdit
    request for version 0 of the document goes out on the channel; the call
    is the call with version 0. *)
Theorem apply_insert_text_version_omitted (u : DocumentUri) (position : Position)
    (txt : string) (s : LspServer) :
  let call := apply_insert_text u position txt Omitted in
  call = apply_insert_text u position txt (Given (Some 0%Z)) ∧
  sent (exec call s) =
    (sent s ++
     [ {| req_method := "workspace/applyEdit";
          req_params :=
            ParamsApplyWorkspaceEdit
              {| edit :=
                  {| documentChanges :=
                      [ {| edit_textDocument := {| id_uri := u; id_version := 0 |};
                           edits :=
                             [ {| edit_range :=
                                    {| range_start := position; range_end := position |};
                                  newText := txt |} ] |} ] |} |} |} ])%list ∧
  result call s = outcome_bind (editor (sent (exec call s))) ofdict.
Proof.
  intros call. subst call. split; [done |].
  unfold exec, result, apply_insert_text. cbn [arg_or].
  by rewrite apply_workspace_edit_typed.
Qed.

(** C7: a payload that is not an [ApplyWorkspaceEditParams] raises
    [TypeError] and leaves the server, its channel included, as it was; a
    payload that is one puts exactly one workspace/applyEdit request on the
    channel and returns the editor's answer read as an
    [ApplyWorkspaceEditResponse]. *)
Theorem apply_workspace_edit_checks_payload (payload : Payload) (s : LspServer) :
  let s' := exec (apply_workspace_edit payload) s in
  let r := result (apply_workspace_edit payload) s in
  match payload with
  | ObjApplyWorkspaceEditParams p =>
      is_ApplyWorkspaceEditParams payload = true ∧
      sent s' =
        (sent s ++ [ {| req_method := "workspace/applyEdit";
                        req_params := ParamsApplyWorkspaceEdit p |} ])%list ∧
      r = outcome_bind (editor (sent s')) ofdict ∧
      (∀ raw response,
         editor (sent s') = Returned raw → ofdict raw = Returned response →
         r = Returned response)
  | _ =>
      is_ApplyWorkspaceEditParams payload = false ∧
      r = Raised (TypeError "expected ApplyWorkspaceEditParams or InsertionEdit") ∧
      s' = s
  end.
Proof.
  intros s' r. subst s' r. unfold exec, result.
  destruct payload as [p | e | raw |]; try done.
  rewrite apply_workspace_edit_typed. simpl. split_and!; try done.
  intros raw response -> Hraw. done.
Qed.

(** C9: the save and close handlers return without touching the server:
    the store after them is the store before them, and a closed document's
    record is still there. *)
Theorem save_and_close_leave_the_store (s : LspServer) (u : DocumentUri) :
  exec (on_did_save u) s = s ∧
  exec (on_did_close u) s = s ∧
  documents (exec (handle (DidSave u)) s) = documents s ∧
  documents (exec (handle (DidClose u)) s) = documents s ∧
  documents (exec (on_did_close u) s) !! u = documents s !! u.
Proof. done. Qed.

(** C10: a workspace-configuration query puts one workspace/configuration
    request on the channel, whose [items] is the one-element list made of
    the section and the scope it was called with, and returns the editor's
    answer. *)
Theorem get_workspace_configuration_single_item (sec : option string)
    (scope : option DocumentUri) (s : LspServer) :
  let s' := exec (get_workspace_configuration sec scope) s in
  ∃ params : ConfigurationParams,
    sent s' =
      (sent s ++ [ {| req_method := "workspace/configuration";
                      req_params := ParamsConfiguration params |} ])%list ∧
    items params = [ {| section := sec; scopeUri := scope |} ] ∧
    length (items params) = 1 ∧
    result (get_workspace_configuration sec scope) s = editor (sent s').
Proof.
  intros s'. subst s'. unfold exec, result, get_workspace_configuration.
  rewrite request_run. simpl. by eexists.
Qed.

(** ** One call at a time *)

Ltac handle_cases n s :=
  destruct n as [item | params | ? | ? | ?]; cbn [handle]; unfold exec;
  [ rewrite on_did_open_run
  | let d := fresh "d" in
    let Hdoc := fresh "Hdoc" in
    destruct (documents s !! id_uri (textDocument params)) as [d|] eqn:Hdoc;
    [ rewrite (on_did_change_opened _ _ _ Hdoc) | rewrite (on_did_change_unopened _ _ Hdoc) ]
  | | | ];
  cbn [snd fst documents change_callbacks logged sent waited].

Lemma apply_in_order_app (cs1 cs2 : list ContentChange) (t : string) :
  apply_in_order (cs1 ++ cs2)%list t = apply_in_order cs2 (apply_in_order cs1 t).
Proof. revert t. induction cs1 as [|c cs1 IH]; intros t; simpl; [done | apply IH]. Qed.

Lemma handle_sent (n : Notification) (s : LspServer) : sent (exec (handle n) s) = sent s.
Proof. handle_cases n s; done. Qed.

Lemma handle_observers (n : Notification) (s : LspServer) (u : DocumentUri) :
  observers (exec (handle n) s) u = observers s u.
Proof.
  handle_cases n s; try done. unfold observers. simpl.
  destruct (change_callbacks s !! id_uri (textDocument params)) as [cbs|] eqn:Hcb; [done |].
  rewrite lookup_insert. case_decide as Hu; [| done]. subst u. by rewrite Hcb.
Qed.

Lemma handle_dom (n : Notification) (s : LspServer) :
  dom (documents (exec (handle n) s)) = dom (documents s) ∪ opened_by (Inbound n).
Proof.
  handle_cases n s; simpl.
  - rewrite dom_insert_L. set_solver.
  - rewrite dom_insert_L. apply (elem_of_dom_2 (documents s)) in Hdoc. set_solver.
  - set_solver.
  - set_solver.
  - set_solver.
  - set_solver.
Qed.

Lemma register_frame (callback : Callable) (u : DocumentUri) (s : LspServer) :
  let s' := exec (register_change_callback callback u) s in
  documents s' = documents s ∧ logged s' = logged s ∧ sent s' = sent s ∧ waited s' = waited s.
Proof. intros s'. subst s'. unfold exec. by rewrite register_change_callback_run. Qed.

Lemma observers_register_ne (s : LspServer) (callback : Callable) (u u' : DocumentUri) :
  u ≠ u' → observers (exec (register_change_callback callback u) s) u' = observers s u'.
Proof.
  intros Hne. unfold exec. rewrite register_change_callback_run. unfold observers at 1. simpl.
  by rewrite lookup_insert_ne.
Qed.

Lemma apply_workspace_edit_run (params : Payload) (s : LspServer) :
  exec (apply_workspace_edit params) s =
    {| documents := documents s; change_callbacks := change_callbacks s;
       logged := logged s;
       sent :=
         match params with
         | ObjApplyWorkspaceEditParams p =>
             (sent s ++ [ {| req_method := "workspace/applyEdit";
                             req_params := ParamsApplyWorkspaceEdit p |} ])%list
         | _ => sent s
         end;
       waited := waited s |}.
Proof.
  unfold exec. destruct params as [p | e | raw |]; [| by destruct s ..].
  by rewrite apply_workspace_edit_typed.
Qed.

Lemma outbound_frame (c : Call) (s : LspServer) :
  is_outbound c = true →
  documents (call c s) = documents s ∧ change_callbacks (call c s) = change_callbacks s ∧
  logged (call c s) = logged s ∧ waited (call c s) = waited s.
Proof.
  destruct c as [n | cb u | u position txt version_arg | params | sec scope];
    try (intros [=]; fail); intros _; cbn [call].
  - destruct version_arg as [|[v|]]; unfold apply_insert_text; cbn [arg_or];
      try (by rewrite apply_workspace_edit_run); done.
  - by rewrite apply_workspace_edit_run.
  - unfold exec, get_workspace_configuration. by rewrite request_run.
Qed.

Lemma call_methods_sent (c : Call) (s : LspServer) :
  req_method <$> sent (call c s) = ((req_method <$> sent s) ++ methods_sent c)%list.
Proof.
  destruct c as [n | cb u | u position txt version_arg | params | sec scope];
    cbn [call methods_sent].
  - by rewrite handle_sent, app_nil_r.
  - destruct (register_frame cb u s) as (_ & _ & -> & _). by rewrite app_nil_r.
  - destruct version_arg as [|[v|]]; unfold apply_insert_text; cbn [arg_or].
    + rewrite apply_workspace_edit_run. simpl. by rewrite fmap_app.
    + rewrite apply_workspace_edit_run. simpl. by rewrite fmap_app.
    + by rewrite app_nil_r.
  - rewrite apply_workspace_edit_run. destruct params; simpl; by rewrite ?fmap_app, ?app_nil_r.
  - unfold exec, get_workspace_configuration. rewrite request_run. simpl. by rewrite fmap_app.
Qed.

Lemma call_dom (c : Call) (s : LspServer) :
  dom (documents (call c s)) = dom (documents s) ∪ opened_by c.
Proof.
  destruct c as [n | cb u | u position txt version_arg | params | sec scope].
  - apply handle_dom.
  - cbn [call opened_by]. destruct (register_frame cb u s) as (-> & _). set_solver.
  - destruct (outbound_frame (ApplyInsertText u position txt version_arg) s eq_refl) as (-> & _).
    set_solver.
  - destruct (outbound_frame (ApplyWorkspaceEdit params) s eq_refl) as (-> & _). set_solver.
  - destruct (outbound_frame (GetWorkspaceConfiguration sec scope) s eq_refl) as (-> & _).
    set_solver.
Qed.

Lemma call_observers (c : Call) (s : LspServer) (u : DocumentUri) :
  observers (call c s) u = observers s u ∪ registered_by u c.
Proof.
  destruct c as [n | cb u' | u' position txt version_arg | params | sec scope];
    cbn [registered_by].
  - cbn [call]. rewrite handle_observers. set_solver.
  - cbn [call]. case_decide as Hu.
    + subst u'. apply observers_register.
    + rewrite observers_register_ne by done. set_solver.
  - unfold observers.
    destruct (outbound_frame (ApplyInsertText u' position txt version_arg) s eq_refl)
      as (_ & -> & _).
    set_solver.
  - unfold observers.
    destruct (outbound_frame (ApplyWorkspaceEdit params) s eq_refl) as (_ & -> & _). set_solver.
  - unfold observers.
    destruct (outbound_frame (GetWorkspaceConfiguration sec scope) s eq_refl) as (_ & -> & _).
    set_solver.
Qed.

Lemma call_well_keyed (c : Call) (s : LspServer) : well_keyed s → well_keyed (call c s).
Proof.
  intros Hs. destruct c as [n | cb u | u position txt version_arg | params | sec scope].
  - by apply handle_well_keyed.
  - unfold well_keyed. cbn [call]. destruct (register_frame cb u s) as (-> & _). apply Hs.
  - unfold well_keyed.
    destruct (outbound_frame (ApplyInsertText u position txt version_arg) s eq_refl) as (-> & _).
    apply Hs.
  - unfold well_keyed.
    destruct (outbound_frame (ApplyWorkspaceEdit params) s eq_refl) as (-> & _). apply Hs.
  - unfold well_keyed.
    destruct (outbound_frame (GetWorkspaceConfiguration sec scope) s eq_refl) as (-> & _).
    apply Hs.
Qed.

(** ** Opening and changing, beyond one notification *)

(** X1: opening a uri that is already open replaces its record by the new
    item (whatever version it carries), exactly as if only the second open
    had happened; every other uri keeps its record, and opens touch
    neither the observers nor the channel nor the event loop. *)
Theorem on_did_open_last_writer_wins (s : LspServer) (item1 item2 : TextDocumentItem) :
  uri item1 = uri item2 →
  let s2 := exec (on_did_open item2) (exec (on_did_open item1) s) in
  documents s2 !! uri item2 = Some item2 ∧
  documents s2 = documents (exec (on_did_open item2) s) ∧
  (∀ u, u ≠ uri item2 → documents s2 !! u = documents s !! u) ∧
  change_callbacks s2 = change_callbacks s ∧ sent s2 = sent s ∧ waited s2 = waited s.
Proof.
  intros Huri s2. subst s2. unfold exec. rewrite !on_did_open_run. simpl. rewrite Huri.
  split_and!; try done.
  - apply lookup_insert_eq.
  - apply insert_insert_eq.
  - intros u Hu. by rewrite !lookup_insert_ne.
Qed.

(** X2: a change notification touches the record of its own uri only:
    every other uri keeps its record, no uri enters or leaves the store,
    nobody's observers change, and nothing is sent to the editor. *)
Theorem on_did_change_touches_one_document (s : LspServer)
    (params : DidChangeTextDocumentParams) :
  let s' := exec (_on_did_change params) s in
  (∀ u, u ≠ id_uri (textDocument params) → documents s' !! u = documents s !! u) ∧
  dom (documents s') = dom (documents s) ∧
  (∀ u, observers s' u = observers s u) ∧
  sent s' = sent s.
Proof.
  intros s'. subst s'. split_and!.
  - intros u Hu. apply (handle_undeclared u (DidChange params)). simpl. by case_decide.
  - rewrite (handle_dom (DidChange params)). simpl. set_solver.
  - intros u. apply (handle_observers (DidChange params)).
  - apply (handle_sent (DidChange params)).
Qed.

(** X3: two change notifications for the same uri, one after the other,
    leave the store as one notification that carries the edits of both, in
    order, and the version of the second. *)
Theorem successive_changes_compose (s : LspServer) (u : DocumentUri) (v1 v2 : Z)
    (cs1 cs2 : list ContentChange) :
  documents (exec (_on_did_change (did_change u v2 cs2))
                  (exec (_on_did_change (did_change u v1 cs1)) s)) =
  documents (exec (_on_did_change (did_change u v2 (cs1 ++ cs2)%list)) s).
Proof.
  unfold exec. destruct (documents s !! u) as [d|] eqn:Hdoc.
  - rewrite (on_did_change_opened s (did_change u v1 cs1) d Hdoc).
    rewrite (on_did_change_opened s (did_change u v2 (cs1 ++ cs2)%list) d Hdoc).
    cbn [snd did_change textDocument contentChanges id_uri id_version].
    erewrite on_did_change_opened; [| cbn; apply lookup_insert_eq].
    cbn [snd documents did_change textDocument contentChanges id_uri id_version].
    rewrite insert_insert_eq, apply_in_order_app. done.
  - rewrite (on_did_change_unopened s (did_change u v1 cs1) Hdoc).
    rewrite (on_did_change_unopened s (did_change u v2 (cs1 ++ cs2)%list) Hdoc).
    cbn [snd]. rewrite on_did_change_unopened; [done | apply Hdoc].
Qed.

(** X9: over two successive changes of an opened document the observers see
    a chain of snapshots: the first batch is called with the stored record
    as [before], the second batch's [before] is the first batch's [after],
    and the second batch's [after] is what the store holds in the end. *)
Theorem snapshots_chain (s : LspServer) (u : DocumentUri) (d : TextDocumentItem)
    (v1 v2 : Z) (cs1 cs2 : list ContentChange) :
  documents s !! u = Some d →
  let s2 := exec (_on_did_change (did_change u v2 cs2))
                 (exec (_on_did_change (did_change u v1 cs1)) s) in
  ∃ batch1 batch2,
    waited s2 = (waited s ++ [batch1; batch2])%list ∧
    ∀ c1 c2, c1 ∈ batch1 → c2 ∈ batch2 →
      before (kwargs c1) = d ∧
      after (kwargs c1) = before (kwargs c2) ∧
      documents s2 !! u = Some (after (kwargs c2)).
Proof.
  intros Hdoc s2. subst s2. unfold exec.
  rewrite (on_did_change_opened s (did_change u v1 cs1) d Hdoc).
  cbn [snd did_change textDocument contentChanges id_uri id_version].
  erewrite on_did_change_opened; [| cbn; apply lookup_insert_eq].
  cbn [snd documents waited did_change textDocument contentChanges id_uri id_version].
  eexists _, _. split; [by rewrite <- app_assoc |].
  intros c1 c2 Hc1%change_batch_kwargs Hc2%change_batch_kwargs.
  rewrite Hc1, Hc2. simpl. by rewrite lookup_insert_eq.
Qed.

(** X12: the lookup [self.change_callbacks[uri]] of a change to an opened
    document leaves an entry for that uri in the registry, an empty one if
    nothing was registered; the registry gets no other new key. *)
Theorem on_did_change_creates_registry_entry (s : LspServer)
    (params : DidChangeTextDocumentParams) (document : TextDocumentItem) :
  documents s !! id_uri (textDocument params) = Some document →
  let s' := exec (_on_did_change params) s in
  dom (change_callbacks s') = dom (change_callbacks s) ∪ {[ id_uri (textDocument params) ]} ∧
  (change_callbacks s !! id_uri (textDocument params) = None →
     change_callbacks s' !! id_uri (textDocument params) = Some ∅).
Proof.
  intros Hdoc s'. subst s'. unfold exec. rewrite (on_did_change_opened _ _ _ Hdoc). simpl.
  destruct (change_callbacks s !! id_uri (textDocument params)) as [cbs|] eqn:Hcb.
  - split; [| done]. apply (elem_of_dom_2 (change_callbacks s)) in Hcb. set_solver.
  - split; [| intros _; apply lookup_insert_eq]. rewrite dom_insert_L. set_solver.
Qed.

(** X10: the order in which two callbacks are registered does not matter,
    for the same uri or for two: both orders end in the same server. *)
Theorem register_change_callback_commutes (s : LspServer) (a b : Callable)
    (u u' : DocumentUri) :
  exec (register_change_callback b u') (exec (register_change_callback a u) s) =
  exec (register_change_callback a u) (exec (register_change_callback b u') s).
Proof.
  unfold exec. rewrite !register_change_callback_run. unfold set_change_callbacks.
  cbn [snd documents change_callbacks logged sent waited]. f_equal.
  unfold observers. cbn [change_callbacks].
  destruct (decide (u = u')) as [<- | Hne].
  - rewrite !lookup_insert_eq, !insert_insert_eq. simpl. f_equal.
    rewrite <- !(assoc_L (∪)). f_equal. apply (comm_L (∪)).
  - rewrite !lookup_insert_ne by done. by apply insert_insert_ne.
Qed.

(** ** Invariants of whole sessions *)

Lemma call_waited (c : Call) (s : LspServer) :
  waited (call c s) = waited s ∨
  ∃ params document, waited (call c s) = (waited s ++ [change_batch s params document])%list.
Proof.
  destruct c as [n | cb u | u position txt version_arg | params | sec scope].
  - cbn [call]. handle_cases n s; eauto.
  - left. cbn [call]. by destruct (register_frame cb u s) as (_ & _ & _ & ->).
  - left. by destruct (outbound_frame (ApplyInsertText u position txt version_arg) s eq_refl)
      as (_ & _ & _ & ->).
  - left. by destruct (outbound_frame (ApplyWorkspaceEdit params) s eq_refl) as (_ & _ & _ & ->).
  - left. by destruct (outbound_frame (GetWorkspaceConfiguration sec scope) s eq_refl)
      as (_ & _ & _ & ->).
Qed.

Lemma change_batch_ends_with_default_hook (s : LspServer)
    (params : DidChangeTextDocumentParams) (document : TextDocumentItem) :
  ends_with_default_hook (change_batch s params document).
Proof. unfold ends_with_default_hook. rewrite change_batch_targets. apply last_snoc. Qed.



(** X4: through any session the set of open uris is the one at the start
    plus the uris of the didOpen notifications received: nothing else puts
    a uri into the store, and nothing (didClose included) takes one out. *)
Theorem store_domain_after_calls (cs : list Call) (s : LspServer) :
  dom (documents (calls cs s)) = dom (documents s) ∪ ⋃ (opened_by <$> cs).
Proof.
  revert s. induction cs as [|c cs IH]; intros s; simpl.
  - set_solver.
  - rewrite IH, call_dom. set_solver.
Qed.

(** X11: through any session the observers of a uri are those at the start
    plus the callbacks registered for that uri since: no call removes an
    observer, and registrations for other uris, notifications and outbound
    calls add none. *)
Theorem observers_after_calls (cs : list Call) (s : LspServer) (u : DocumentUri) :
  observers (calls cs s) u = observers s u ∪ ⋃ (registered_by u <$> cs).
Proof.
  revert s. induction cs as [|c cs IH]; intros s; simpl.
  - set_solver.
  - rewrite IH, call_observers. set_solver.
Qed.

(** X7: the methods of the requests on the channel after a session are
    those before it followed, call by call and in order, by one
    workspace/applyEdit for every insert-text or workspace-edit call that
    passes its check and one workspace/configuration for every
    configuration query; notifications and registrations send nothing. *)
Theorem channel_trace_of_calls (cs : list Call) (s : LspServer) :
  req_method <$> sent (calls cs s) =
    ((req_method <$> sent s) ++ concat (methods_sent <$> cs))%list.
Proof.
  revert s. induction cs as [|c cs IH]; intros s; simpl.
  - by rewrite app_nil_r.
  - by rewrite IH, call_methods_sent, <- app_assoc.
Qed.

(** X6: in every server reached from a fresh one by any session, each
    record of the store sits under the key that is its own [uri]. *)
Theorem store_keys_are_record_uris (cs : list Call) (k : DocumentUri)
    (r : TextDocumentItem) :
  documents (calls cs init) !! k = Some r → uri r = k.
Proof.
  assert (Hinv : ∀ s, well_keyed s → well_keyed (calls cs s)).
  { induction cs as [|c cs IH]; intros s Hs; simpl; [done |]. by apply IH, call_well_keyed. }
  apply (Hinv init init_well_keyed).
Qed.

(** X8: every batch a session ever hands to [asyncio.wait] ends with the
    server's own [on_change], so no batch is empty. *)
Theorem awaited_batches_end_with_default_hook (cs : list Call) :
  Forall (λ batch, ends_with_default_hook batch ∧ batch ≠ []) (waited (calls cs init)).
Proof.
  assert (Hinv : ∀ s,
    Forall (λ batch, ends_with_default_hook batch ∧ batch ≠ []) (waited s) →
    Forall (λ batch, ends_with_default_hook batch ∧ batch ≠ []) (waited (calls cs s))).
  { induction cs as [|c cs IH]; intros s Hs; simpl; [done |]. apply IH.
    destruct (call_waited c s) as [-> | (params & document & ->)]; [done |].
    apply Forall_app. split; [done |]. apply Forall_singleton. split.
    - apply change_batch_ends_with_default_hook.
    - unfold change_batch. intros Hnil. by apply app_eq_nil in Hnil as [_ [=]]. }
  apply Hinv. simpl. apply Forall_nil_2.
Qed.


Lemma call_keeps_identity (c : Call) (s : LspServer) (u : DocumentUri)
    (r : TextDocumentItem) :
  documents s !! u = Some r → u ∉ opened_by c →
  ∃ r', documents (call c s) !! u = Some r' ∧ uri r' = uri r ∧ languageId r' = languageId r.
Proof.
  intros Hr Hu. destruct c as [n | cb u' | u' position txt version_arg | params | sec scope].
  - cbn [call]. destruct n as [item | params | ? | ? | ?]; try (by exists r).
    + exists r. split; [| done]. rewrite (handle_undeclared u (DidOpen item)); [done |].
      simpl. case_decide; [| done]. set_solver.
    + destruct (decide (id_uri (textDocument params) = u)) as [<- | Hne].
      * cbn [handle]. unfold exec. rewrite (on_did_change_opened _ _ _ Hr). simpl.
        rewrite lookup_insert_eq. eauto.
      * exists r. split; [| done]. rewrite (handle_undeclared u (DidChange params)); [done |].
        simpl. by case_decide.
  - exists r. cbn [call]. by destruct (register_frame cb u' s) as (-> & _).
  - exists r.
    by destruct (outbound_frame (ApplyInsertText u' position txt version_arg) s eq_refl)
      as (-> & _).
  - exists r. by destruct (outbound_frame (ApplyWorkspaceEdit params) s eq_refl) as (-> & _).
  - exists r.
    by destruct (outbound_frame (GetWorkspaceConfiguration sec scope) s eq_refl) as (-> & _).
Qed.

(** X5: an open document keeps its [uri] and its [languageId] through any
    session that does not open the uri again: changes only ever replace
    the version and the text. *)
Theorem changes_keep_uri_and_language (cs : list Call) (s : LspServer) (u : DocumentUri)
    (r : TextDocumentItem) :
  documents s !! u = Some r →
  u ∉ ⋃ (opened_by <$> cs) →
  ∃ r', documents (calls cs s) !! u = Some r' ∧
        uri r' = uri r ∧ languageId r' = languageId r.
Proof.
  revert s r. induction cs as [|c cs IH]; intros s r Hr Hu; simpl in *.
  - eauto.
  - apply not_elem_of_union in Hu as [Hc Hcs].
    destruct (call_keeps_identity c s u r Hr Hc) as (r1 & Hr1 & <- & <-).
    by apply IH.
Qed.

(** X13: the outbound methods never touch the server's own copy: after
    any run of insert-text, workspace-edit and configuration calls,
    accepted by the editor or not, the store, the observers, the log and
    the awaited batches are what they were.  An edit the server sends
    reaches the store only when the editor reports it back. *)
Theorem outbound_calls_leave_the_store (cs : list Call) (s : LspServer) :
  Forall (λ c, is_outbound c = true) cs →
  documents (calls cs s) = documents s ∧
  change_callbacks (calls cs s) = change_callbacks s ∧
  logged (calls cs s) = logged s ∧
  waited (calls cs s) = waited s.
Proof.
  revert s. induction cs as [|c cs IH]; intros s Hcs; simpl; [done |].
  apply Forall_cons in Hcs as [Hc Hcs].
  destruct (IH (call c s) Hcs) as (-> & -> & -> & ->).
  by apply outbound_frame.
Qed.


(** X15: [apply_insert_text] with the version passed explicitly: [None]
    raises the assertion error and leaves the server untouched; an integer
    sends one workspace/applyEdit request holding one document change for
    that uri and version, with one edit whose range is empty at the given
    position and whose new text is the given text, and returns what
    [apply_workspace_edit] returns for the editor's answer. *)
Theorem apply_insert_text_builds_zero_width_edit (u : DocumentUri) (position : Position)
    (txt : string) (v : option Z) (s : LspServer) :
  let m := apply_insert_text u position txt (Given v) in
  match v with
  | None => m s = (Raised (AssertionError "version must be given, or we get no edit."), s)
  | Some v =>
      ∃ e : TextEdit,
        sent (exec m s) =
          (sent s ++
           [ {| req_method := "workspace/applyEdit";
                req_params :=
                  ParamsApplyWorkspaceEdit
                    {| edit :=
                        {| documentChanges :=
                            [ {| edit_textDocument := {| id_uri := u; id_version := v |};
                                 edits := [e] |} ] |} |} |} ])%list ∧
        range_start (edit_range e) = position ∧
        range_end (edit_range e) = position ∧
        newText e = txt ∧
        result m s = outcome_bind (editor (sent (exec m s))) ofdict
  end.
Proof.
  intros m. subst m. destruct v as [v|]; [| done].
  unfold exec, result, apply_insert_text. cbn [arg_or].
  rewrite apply_workspace_edit_typed. simpl. by eexists.
Qed.

End Properties.

(** ** The statements on the concrete session *)

Example end_to_end_insertion :
  let s := exec (_on_did_change (change_to 2 [insertion 0 1 "X"])) opened in
  documents s !! "doc1" =
    Some {| uri := "doc1"; languageId := "python"; version := 2; text := "aXb" |} ∧
  texts_seen s = [[("ab", "aXb")]].
Proof. by vm_compute. Qed.

Example insert_text_without_version_is_sent :
  let call := apply_insert_text (env := session) "doc1" here "X" Omitted in
  result call init = Returned true ∧ length (sent (exec call init)) = 1.
Proof. by vm_compute. Qed.

Example workspace_edit_rejects_untyped_payload :
  apply_workspace_edit (@ObjDict session (Some true)) opened =
    (Raised (TypeError "expected ApplyWorkspaceEditParams or InsertionEdit"), opened).
Proof. reflexivity. Qed.

Lemma on_did_change_applies_edits_in_order_witness :
  documents (exec (_on_did_change (change_to 2 [insertion 0 1 "X"; insertion 0 2 "Y"])) opened)
    !! "doc1" =
  Some {| uri := "doc1"; languageId := "python"; version := 2; text := "aXYb" |}.
Proof.
  pose proof (on_did_change_applies_edits_in_order (env := session) opened
                (change_to 2 [insertion 0 1 "X"; insertion 0 2 "Y"]) doc1) as Hthm.
  destruct Hthm as (Hstored & _); [reflexivity | exact Hstored].
Defined.

Lemma on_did_change_unknown_document_witness :
  let s' := exec (_on_did_change (change_to 2 [insertion 0 1 "X"])) (init (env := session)) in
  logged s' = [(ERROR, "document doc1 not opened")] ∧
  documents s' = ∅ ∧ waited s' = [].
Proof.
  pose proof (on_did_change_unknown_document (env := session) init
                (change_to 2 [insertion 0 1 "X"])) as Hthm.
  destruct Hthm as (_ & Hlog & Hdocs & _ & Hwait & _); [reflexivity |].
  split_and!; [exact Hlog | exact Hdocs | exact Hwait].
Defined.

Lemma on_did_change_dispatches_one_event_witness :
  ∃ (batch : list (@Coroutine session)) (document_after : TextDocumentItem),
    waited (exec (_on_did_change (change_to 2 [insertion 0 1 "X"])) watched) =
      (waited watched ++ [batch])%list ∧
    documents (exec (_on_did_change (change_to 2 [insertion 0 1 "X"])) watched) !! "doc1" =
      Some document_after ∧
    (∀ c, c ∈ batch →
       kwargs c = {| before := doc1; after := document_after;
                     changes := change_to 2 [insertion 0 1 "X"] |}) ∧
    (∀ cb, cb ∈ observers watched "doc1" → invocations (Registered cb) batch = 1) ∧
    invocations DefaultHook batch = 1 ∧
    length batch = S (size (observers watched "doc1")).
Proof.
  apply (on_did_change_dispatches_one_event (env := session) watched
           (change_to 2 [insertion 0 1 "X"]) doc1).
  reflexivity.
Defined.

Lemma register_change_callback_idempotent_witness :
  let once := exec (register_change_callback ("observer" : @Callable session) "doc1") opened in
  let twice := exec (register_change_callback ("observer" : @Callable session) "doc1") once in
  twice = once ∧
  ∃ batch,
    waited (exec (_on_did_change (change_to 2 [insertion 0 1 "X"])) twice) =
      (waited opened ++ [batch])%list ∧
    invocations (Registered ("observer" : @Callable session)) batch = 1.
Proof.
  apply (register_change_callback_idempotent (env := session) opened "observer"
           (change_to 2 [insertion 0 1 "X"]) doc1).
  reflexivity.
Defined.

Lemma versions_follow_declared_witness :
  versions_advance "doc1" doc1
    [DidChange (change_to 2 [insertion 0 1 "X"]); DidSave "doc1"; DidChange (change_to 3 [])]
    opened.
Proof.
  pose proof (versions_follow_declared (env := session) init doc1
                [DidChange (change_to 2 [insertion 0 1 "X"]); DidSave "doc1";
                 DidChange (change_to 3 [])]) as Hthm.
  destruct Hthm as (_ & Hadv & _).
  - apply init_well_keyed.
  - simpl. lia.
  - exact Hadv.
Defined.

(** C4 as the spec states it fails: a change may declare a lower version
    than the stored one, and the handler stores it. *)
Lemma versions_can_go_down :
  ¬ versions_advance "doc1" doc1_v5
      [DidChange (change_to 3 [insertion 0 1 "X"])]
      (exec (on_did_open doc1_v5) (init (env := session))).
Proof.
  intros (rs & Hrs & Hsucc).
  destruct rs as [|r rs]; [discriminate Hrs |].
  cbn [stored_after fmap list_fmap] in Hrs.
  injection Hrs as Hr _. vm_compute in Hr. subst r.
  destruct Hsucc as [[Hlt | Heq] _].
  - simpl in Hlt. lia.
  - discriminate Heq.
Qed.

(** ** The session theorems on the concrete session *)

Lemma on_did_open_last_writer_wins_witness :
  documents (exec (on_did_open doc1_v5) opened) !! "doc1" = Some doc1_v5.
Proof.
  pose proof (on_did_open_last_writer_wins (env := session) init doc1 doc1_v5) as Hthm.
  destruct Hthm as (Hstored & _); [reflexivity | exact Hstored].
Defined.

Lemma changes_keep_uri_and_language_witness :
  ∃ r', documents
          (calls [Inbound (DidChange (change_to 2 [insertion 0 1 "X"]));
                  Inbound (DidClose "doc1");
                  ApplyInsertText "doc1" here "Y" (Given (Some 2%Z))] opened) !! "doc1" = Some r' ∧
        uri r' = "doc1" ∧ languageId r' = "python".
Proof.
  apply (changes_keep_uri_and_language (env := session)
           [Inbound (DidChange (change_to 2 [insertion 0 1 "X"]));
            Inbound (DidClose "doc1");
            ApplyInsertText "doc1" here "Y" (Given (Some 2%Z))] opened "doc1" doc1).
  - reflexivity.
  - simpl. rewrite !(left_id_L ∅ (∪)). apply not_elem_of_empty.
Defined.

Lemma store_keys_are_record_uris_witness :
  uri {| uri := "doc1"; languageId := "python"; version := 2; text := "aXb" |} = "doc1".
Proof.
  apply (store_keys_are_record_uris (env := session)
           [Inbound (DidOpen doc1); Inbound (DidChange (change_to 2 [insertion 0 1 "X"]))]).
  reflexivity.
Defined.

Lemma snapshots_chain_witness :
  let s2 := exec (_on_did_change (did_change (env := session) "doc1" 3 [insertion 0 2 "Y"]))
                 (exec (_on_did_change (did_change (env := session) "doc1" 2
                                          [insertion 0 1 "X"])) opened) in
  ∃ batch1 batch2,
    waited s2 = (waited opened ++ [batch1; batch2])%list ∧
    ∀ c1 c2, c1 ∈ batch1 → c2 ∈ batch2 →
      before (kwargs c1) = doc1 ∧
      after (kwargs c1) = before (kwargs c2) ∧
      documents s2 !! "doc1" = Some (after (kwargs c2)).
Proof.
  apply (snapshots_chain (env := session) opened "doc1" doc1 2 3
           [insertion 0 1 "X"] [insertion 0 2 "Y"]).
  reflexivity.
Defined.

Lemma on_did_change_creates_registry_entry_witness :
  change_callbacks (exec (_on_did_change (change_to 2 [insertion 0 1 "X"])) opened) !! "doc1" =
    Some ∅.
Proof.
  pose proof (on_did_change_creates_registry_entry (env := session) opened
                (change_to 2 [insertion 0 1 "X"]) doc1) as Hthm.
  destruct Hthm as (_ & Hentry); [reflexivity |].
  apply Hentry. reflexivity.
Defined.

Lemma outbound_calls_leave_the_store_witness :
  documents
    (calls [ApplyInsertText "doc1" here "X" (Given (Some 1%Z));
            ApplyWorkspaceEdit (@ObjNone session);
            GetWorkspaceConfiguration None None] opened) = documents opened.
Proof.
  pose proof (outbound_calls_leave_the_store (env := session)
                [ApplyInsertText "doc1" here "X" (Given (Some 1%Z));
                 ApplyWorkspaceEdit (@ObjNone session);
                 GetWorkspaceConfiguration None None] opened) as Hthm.
  destruct Hthm as (Hdocs & _); [| exact Hdocs].
  repeat constructor.
Defined.

